(** * The auctioneer HTTP client (client.go)

    A shallow embedding of [client.go]: the client configuration
    [auctioneerClient], its two constructors [NewClient] and
    [NewSecureClient], the two submit operations [RequestLRPAuctions] and
    [RequestTaskAuctions], and the dispatch policy [doRequest] (HTTPS first,
    one fallback on plain HTTP).

    Everything the file imports (net/http, encoding/json, cfhttp, lager,
    rata, the tracing middleware) and the declarations of the package that
    live in other files (the route table, the two start-request types) are
    collaborators: their types and operations are the fields of the classes
    [Opaque] and [Collaborators], so that every theorem holds for every
    behaviour of the network, of the file system and of the tracer. *)

From Stdlib Require Import ZArith.
From stdpp Require Import base option list strings gmap pretty.

Local Open Scope string_scope.
Local Open Scope Z_scope.

(** ** Go values *)

(** An [error] value, identified by the message of its [Error()] method
    ([errors.New], [fmt.Errorf]).  The [nil] error is [None] in
    [option error]. *)
Inductive error : Type :=
| errorString (msg : string).

(** A nullable pointer [*T]: [None] is [nil]. *)
Definition ptr (A : Type) : Type := option A.

(** A slice [[]T]: [None] is the nil slice, [Some l] a slice over a backing
    array with the elements [l] (possibly none). Both have length 0 when
    empty; [encoding/json] tells them apart. *)
Definition slice (A : Type) : Type := option (list A).

Definition len {A : Type} (s : slice A) : nat :=
  match s with
  | None => 0%nat
  | Some l => length l
  end.

(** [context.Context]: a handle; whether it is done is a fact of the world
    at the time one asks ([ctx_Err] below). *)
Record context_Context : Type := { ctx_key : nat }.

(** ** net/http requests and responses *)

(** [url.URL], the parts the client touches or must leave alone. *)
Record URL : Type := {
  Scheme : string;
  Host : string;
  Path : string
}.

(** [http.Request]: [req_Header] is Go's [map[string][]string]; [req_ctx]
    is the context attached by [WithContext]. [req_Body] is the state of
    the body reader: the client builds it with [bytes.NewBuffer(payload)],
    a reader that gives its bytes once, so the field holds the bytes the
    reader has still to give. A call of [Do] reads from it, and nothing in
    the client rewinds it. *)
Record Request : Type := {
  req_Method : string;
  req_URL : URL;
  req_Header : gmap string (list string);
  req_Body : string;
  req_ctx : context_Context
}.

(** [http.Response]: the status code and the body (to be closed). *)
Record Response : Type := {
  StatusCode : Z;
  resp_Body : string
}.

(** What the method [Do] of [http.Client] returns. By its contract the error is nil
    exactly when a response was received (whatever its status code), and
    "on error, any Response can be ignored": the two cases of this type. *)
Inductive DoResult : Type :=
| DoOk (resp : Response)
| DoErr (err : error).

Definition http_StatusAccepted : Z := 202.

(** What is left of a body after [n] of its bytes were read. *)
Fixpoint unread (n : nat) (body : string) : string :=
  match n, body with
  | O, _ => body
  | S n', String _ rest => unread n' rest
  | S _, EmptyString => EmptyString
  end.

(** The request after a reader took [n] bytes from its body: the request
    is the same object, only its body reader has advanced. *)
Definition read_Body (n : nat) (req : Request) : Request :=
  {| req_Method := req_Method req;
     req_URL := req_URL req;
     req_Header := req_Header req;
     req_Body := unread n (req_Body req);
     req_ctx := req_ctx req |}.

(** [req.URL.Scheme = s], an assignment through the pointer [req.URL]. *)
Definition set_Scheme (s : string) (req : Request) : Request :=
  {| req_Method := req_Method req;
     req_URL := {| Scheme := s;
                   Host := Host (req_URL req);
                   Path := Path (req_URL req) |};
     req_Header := req_Header req;
     req_Body := req_Body req;
     req_ctx := req_ctx req |}.

(** [req.WithContext(ctx)]: a copy of the request with the context
    replaced. *)
Definition WithContext (req : Request) (ctx : context_Context) : Request :=
  {| req_Method := req_Method req;
     req_URL := req_URL req;
     req_Header := req_Header req;
     req_Body := req_Body req;
     req_ctx := ctx |}.

(** [req.Header.Set(key, value)] for a key that is already in canonical
    form (as ["Content-Type"] is): the entry is replaced by the single
    value. *)
Definition Header_Set (req : Request) (key value : string) : Request :=
  {| req_Method := req_Method req;
     req_URL := req_URL req;
     req_Header := <[key := [value]]> (req_Header req);
     req_Body := req_Body req;
     req_ctx := req_ctx req |}.

(** ** lager loggers *)

(** A [lager.Logger] is known by the chain of its sessions. *)
Inductive lager_Logger : Type :=
| rootLogger (component : string)
| Session (parent : lager_Logger) (task : string).

(** One [logger.Error(action, err)] event. *)
Record LogEntry : Type := {
  entry_logger : lager_Logger;
  entry_action : string;
  entry_err : error
}.

(** ** rata *)

Record rata_Route : Type := {
  route_Name : string;
  route_Method : string;
  route_Path : string
}.

Record rata_RequestGenerator : Type := {
  gen_host : string;
  gen_routes : list rata_Route
}.

Definition rata_NewRequestGenerator (host : string) (routes : list rata_Route)
  : rata_RequestGenerator :=
  {| gen_host := host; gen_routes := routes |}.

(** ** The opaque types of the collaborators *)

Class Opaque : Type := {
  (** everything outside the client: the network, the connection pools of
      the transports, the file system, the clock *)
  World : Type;
  (** [tls.Config] *)
  tls_Config : Type;
  (** [opentracing.Tracer] *)
  Tracer : Type;
  (** the element types of the two batches, declared elsewhere in the
      package *)
  LRPStartRequest : Type;
  TaskStartRequest : Type
}.

Section Transports.
Context `{Opaque}.

(** [http.Transport], with the one field the constructor assigns. *)
Record http_Transport : Type := {
  TLSClientConfig : ptr tls_Config;
  transport_Dial : string
}.

(** The dynamic type behind the [http.RoundTripper] interface value. *)
Inductive http_RoundTripper : Type :=
| RoundTripper_nil
| RoundTripper_Transport (tr : http_Transport)
| RoundTripper_other (impl : string).

(** [http.Client] *)
Record http_Client : Type := {
  Transport : http_RoundTripper;
  client_Timeout : Z
}.

(** [auctioneerClient]. [httpClient] is never nil (both constructors
    assign it); [insecureHTTPClient] is nil unless a constructor assigns
    it, and [doRequest] tests it. *)
Record auctioneerClient : Type := {
  httpClient : http_Client;
  insecureHTTPClient : ptr http_Client;
  url : string;
  requireTLS : bool;
  traceRequest : Request -> Request
}.
End Transports.

(** ** The operations of the collaborators *)

Class Collaborators `{Opaque} : Type := {
  (** [cfhttp.NewClient()]: a fresh client with a transport of its own *)
  cfhttp_NewClient : http_Client;
  (** [cfhttp.NewTLSConfig(certFile, keyFile, caCertFile)], which reads the
      three files *)
  cfhttp_NewTLSConfig : string -> string -> string -> World -> tls_Config + error;
  (** [middleware.ToHTTPRequest(tracer)] *)
  middleware_ToHTTPRequest : Tracer -> Request -> Request;
  (** the package's route table and the names of its two routes *)
  Routes : list rata_Route;
  CreateLRPAuctionsRoute : string;
  CreateTaskAuctionsRoute : string;
  (** [reqGen.CreateRequest(name, rata.Params{}, body)] *)
  rata_CreateRequest : rata_RequestGenerator -> string -> string -> Request + error;
  (** what [encoding/json] writes for one start request *)
  encode_LRPStartRequest : LRPStartRequest -> string + error;
  encode_TaskStartRequest : TaskStartRequest -> string + error;
  (** [client.Do(req)]: the outcome, then what the call did besides: how
      many bytes it read from the body of [req] (net/http leaves the rest
      of the request alone), and the world after it *)
  http_Client_Do : http_Client -> Request -> World -> DoResult * (nat * World);
  (** [ctx.Err()]: non-nil once the context is canceled or expired *)
  ctx_Err : context_Context -> World -> option error;
  (** [http.StatusText(code)] *)
  http_StatusText : Z -> string
}.

(** ** encoding/json on a slice of pointers *)

Section Json.
Context {E : Type} (encode : E -> string + error).

(** A pointer encodes as the value pointed to, a nil pointer as the JSON
    value [null]. *)
Definition ptrEncoder (p : ptr E) : string + error :=
  match p with
  | None => inl "null"
  | Some v => encode v
  end.

(** The loop of the array encoder over the elements from index [i] on,
    appending to the buffer [buf]: a comma before every element but the
    first; the first error ends the encoding. *)
Fixpoint arrayEncoder_loop (i : nat) (elems : list (ptr E)) (buf : string)
  : string + error :=
  match elems with
  | [] => inl buf
  | p :: rest =>
      let buf := if (0 <? i)%nat then buf +:+ "," else buf in
      match ptrEncoder p with
      | inr err => inr err
      | inl s => arrayEncoder_loop (S i) rest (buf +:+ s)
      end
  end.

(** [json.Marshal(v)] for [v] of a type [[]*E]: a nil slice encodes as the
    JSON value [null], any other slice as a JSON array. *)
Definition json_Marshal (v : slice (ptr E)) : string + error :=
  match v with
  | None => inl "null"
  | Some elems =>
      match arrayEncoder_loop 0 elems "[" with
      | inr err => inr err
      | inl buf => inl (buf +:+ "]")
      end
  end.
End Json.

(** The text of a JSON array with the given element texts, in order. *)
Definition json_array (items : list string) : string :=
  "[" +:+ String.concat "," items +:+ "]".

(** The elements after the first one, each behind its comma. *)
Definition commas (items : list string) : string :=
  fold_right (λ item acc, "," +:+ item +:+ acc) "" items.

(** What the loop of the array encoder has appended to its buffer when it
    ends without error, having started at index [i]. *)
Definition appended (i : nat) (items : list string) : string :=
  if (0 <? i)%nat then commas items else String.concat "," items.

(** ** The client *)

(** Which field of the client an HTTP attempt went through. *)
Inductive ClientField : Type :=
| field_httpClient
| field_insecureHTTPClient.

Section Program.
Context `{Collaborators}.

(** One call of [Do]: the field and client it went through, the request
    as it was at the call, and the outcome. *)
Record Attempt : Type := {
  attempt_field : ClientField;
  attempt_client : http_Client;
  attempt_req : Request;
  attempt_result : DoResult
}.

(** The state a submit call runs in: the world, the receiver [*c], and
    what the call has done so far (the HTTP attempts, the log events, the
    response bodies closed). *)
Record State : Type := {
  world : World;
  self : auctioneerClient;
  attempts : list Attempt;
  logged : list LogEntry;
  closed : list Response
}.

Definition M (A : Type) : Type := State -> A * State.

Definition ret {A : Type} (a : A) : M A := fun s => (a, s).

Definition bind {A B : Type} (m : M A) (k : A -> M B) : M B :=
  fun s => let '(a, s') := m s in k a s'.

Notation "'do' x <- m ;; k" := (bind m (fun x => k))
  (at level 10, x name, m at level 99, k at level 200).

(** reading the receiver *)
Definition receiver : M auctioneerClient := fun s => (self s, s).

(** [client.Do(req)] through the field [f]: the outcome, and the request
    [*req] as the call leaves it, its body read as far as the call read
    it *)
Definition Do (f : ClientField) (client : http_Client) (req : Request)
  : M (DoResult * Request) :=
  fun s =>
    let '(r, (n, w)) := http_Client_Do client req (world s) in
    ((r, read_Body n req),
        {| world := w;
           self := self s;
           attempts := attempts s ++
             [{| attempt_field := f; attempt_client := client;
                 attempt_req := req; attempt_result := r |}];
           logged := logged s;
           closed := closed s |}).

(** [logger.Error(action, err)] *)
Definition logger_Error (logger : lager_Logger) (action : string) (err : error)
  : M unit :=
  fun s =>
    (tt, {| world := world s;
            self := self s;
            attempts := attempts s;
            logged := logged s ++
              [{| entry_logger := logger; entry_action := action;
                  entry_err := err |}];
            closed := closed s |}).

(** [resp.Body.Close()] *)
Definition Body_Close (resp : Response) : M unit :=
  fun s =>
    (tt, {| world := world s;
            self := self s;
            attempts := attempts s;
            logged := logged s;
            closed := closed s ++ [resp] |}).

(** [fmt.Errorf("http error: status code %d (%s)", code, http.StatusText(code))] *)
Definition http_error (code : Z) : error :=
  errorString ("http error: status code " +:+ pretty code +:+
               " (" +:+ http_StatusText code +:+ ")").

Definition NewClient (auctioneerURL : string) (tracer : Tracer)
  : auctioneerClient :=
  {| httpClient := cfhttp_NewClient;
     insecureHTTPClient := None;
     url := auctioneerURL;
     requireTLS := false;
     traceRequest := middleware_ToHTTPRequest tracer |}.

Definition NewSecureClient (auctioneerURL caFile certFile keyFile : string)
    (requireTLS_ : bool) (tracer : Tracer) (w : World)
  : ptr auctioneerClient * option error :=
  let insecureHTTPClient_ := cfhttp_NewClient in
  let httpClient_ := cfhttp_NewClient in
  match cfhttp_NewTLSConfig certFile keyFile caFile w with
  | inr err => (None, Some err)
  | inl tlsConfig =>
      match Transport httpClient_ with
      | RoundTripper_Transport tr =>
          (* tr.TLSClientConfig = tlsConfig, through the pointer held by
             httpClient.Transport *)
          let tr := {| TLSClientConfig := Some tlsConfig;
                       transport_Dial := transport_Dial tr |} in
          let httpClient_ := {| Transport := RoundTripper_Transport tr;
                                client_Timeout := client_Timeout httpClient_ |} in
          (Some {| httpClient := httpClient_;
                   insecureHTTPClient := Some insecureHTTPClient_;
                   url := auctioneerURL;
                   requireTLS := requireTLS_;
                   traceRequest := middleware_ToHTTPRequest tracer |},
           None)
      | _ => (None, Some (errorString "Invalid transport"))
      end
  end.

Definition doRequest (logger : lager_Logger) (req : Request) : M DoResult :=
  do c <- receiver ;;
  do sent <- Do field_httpClient (httpClient c) req ;;
  (* req is a pointer: from here on it is the request as Do left it *)
  let '(r, req) := sent in
  match r with
  | DoErr err =>
      (* Fall back to HTTP and try again if we do not require TLS *)
      match negb (requireTLS c), insecureHTTPClient c with
      | true, Some insecure =>
          do _ <- logger_Error logger "retrying-on-http" err ;;
          let req := set_Scheme "http" req in
          do retried <- Do field_insecureHTTPClient insecure req ;;
          ret retried.1
      | _, _ => ret r
      end
  | DoOk _ => ret r
  end.

Definition RequestLRPAuctions (logger : lager_Logger) (ctx : context_Context)
    (lrpStarts : slice (ptr LRPStartRequest)) : M (option error) :=
  let logger := Session logger "request-lrp-auctions" in
  do c <- receiver ;;
  let reqGen := rata_NewRequestGenerator (url c) Routes in
  match json_Marshal encode_LRPStartRequest lrpStarts with
  | inr err => ret (Some err)
  | inl payload =>
      match rata_CreateRequest reqGen CreateLRPAuctionsRoute payload with
      | inr err => ret (Some err)
      | inl req =>
          let req := traceRequest c (WithContext req ctx) in
          let req := Header_Set req "Content-Type" "application/json" in
          do r <- doRequest logger req ;;
          match r with
          | DoErr err => ret (Some err)
          | DoOk resp =>
              let result :=
                if bool_decide (StatusCode resp ≠ http_StatusAccepted)
                then Some (http_error (StatusCode resp))
                else None in
              do _ <- Body_Close resp ;;
              ret result
          end
      end
  end.

Definition RequestTaskAuctions (logger : lager_Logger) (ctx : context_Context)
    (tasks : slice (ptr TaskStartRequest)) : M (option error) :=
  let logger := Session logger "request-task-auctions" in
  do c <- receiver ;;
  let reqGen := rata_NewRequestGenerator (url c) Routes in
  match json_Marshal encode_TaskStartRequest tasks with
  | inr err => ret (Some err)
  | inl payload =>
      match rata_CreateRequest reqGen CreateTaskAuctionsRoute payload with
      | inr err => ret (Some err)
      | inl req =>
          let req := traceRequest c (WithContext req ctx) in
          let req := Header_Set req "Content-Type" "application/json" in
          do r <- doRequest logger req ;;
          match r with
          | DoErr err => ret (Some err)
          | DoOk resp =>
              let result :=
                if bool_decide (StatusCode resp ≠ http_StatusAccepted)
                then Some (http_error (StatusCode resp))
                else None in
              do _ <- Body_Close resp ;;
              ret result
          end
      end
  end.
End Program.

(** ** Submit calls *)

Section Calls.
Context `{Collaborators}.

(** A call of one of the two submit operations, with its arguments. *)
Inductive SubmitCall : Type :=
| LRPAuctions (logger : lager_Logger) (ctx : context_Context)
    (lrpStarts : slice (ptr LRPStartRequest))
| TaskAuctions (logger : lager_Logger) (ctx : context_Context)
    (tasks : slice (ptr TaskStartRequest)).

Definition submit (call : SubmitCall) : M (option error) :=
  match call with
  | LRPAuctions logger ctx lrpStarts => RequestLRPAuctions logger ctx lrpStarts
  | TaskAuctions logger ctx tasks => RequestTaskAuctions logger ctx tasks
  end.

(** The session logger the call logs with. *)
Definition call_logger (call : SubmitCall) : lager_Logger :=
  match call with
  | LRPAuctions logger _ _ => Session logger "request-lrp-auctions"
  | TaskAuctions logger _ _ => Session logger "request-task-auctions"
  end.

Definition call_ctx (call : SubmitCall) : context_Context :=
  match call with
  | LRPAuctions _ ctx _ => ctx
  | TaskAuctions _ ctx _ => ctx
  end.

Definition call_route (call : SubmitCall) : string :=
  match call with
  | LRPAuctions _ _ _ => CreateLRPAuctionsRoute
  | TaskAuctions _ _ _ => CreateTaskAuctionsRoute
  end.

(** The payload of the call: its batch, marshalled. *)
Definition call_payload (call : SubmitCall) : string + error :=
  match call with
  | LRPAuctions _ _ lrpStarts => json_Marshal encode_LRPStartRequest lrpStarts
  | TaskAuctions _ _ tasks => json_Marshal encode_TaskStartRequest tasks
  end.

(** The encodings of the elements of the batch, in the order of the
    batch; [None] for a nil batch. *)
Definition call_items (call : SubmitCall) : slice (string + error) :=
  match call with
  | LRPAuctions _ _ lrpStarts =>
      option_map (map (ptrEncoder encode_LRPStartRequest)) lrpStarts
  | TaskAuctions _ _ tasks =>
      option_map (map (ptrEncoder encode_TaskStartRequest)) tasks
  end.

(** The request the call hands to [doRequest] on the client [c], or the
    error it returns before any dispatch. *)
Definition call_request (c : auctioneerClient) (call : SubmitCall)
  : Request + error :=
  match call_payload call with
  | inr err => inr err
  | inl payload =>
      match rata_CreateRequest (rata_NewRequestGenerator (url c) Routes)
              (call_route call) payload with
      | inr err => inr err
      | inl req =>
          inl (Header_Set (traceRequest c (WithContext req (call_ctx call)))
                 "Content-Type" "application/json")
      end
  end.

(** How [RequestLRPAuctions] and [RequestTaskAuctions] reduce the outcome
    of [doRequest] to their result. *)
Definition classify (r : DoResult) : option error :=
  match r with
  | DoErr err => Some err
  | DoOk resp =>
      if bool_decide (StatusCode resp ≠ http_StatusAccepted)
      then Some (http_error (StatusCode resp))
      else None
  end.

(** What a computation adds to the state it starts in. *)
Definition attempts_of {A : Type} (m : M A) (s : State) : list Attempt :=
  drop (length (attempts s)) (attempts (m s).2).

Definition logged_by {A : Type} (m : M A) (s : State) : list LogEntry :=
  drop (length (logged s)) (logged (m s).2).

(** The configurations the constructors produce; the flag tells whether
    it was [NewSecureClient]. *)
Inductive Constructed : auctioneerClient → bool → Prop :=
| by_NewClient auctioneerURL tracer :
    Constructed (NewClient auctioneerURL tracer) false
| by_NewSecureClient auctioneerURL caFile certFile keyFile requireTLS_
    tracer w c :
    NewSecureClient auctioneerURL caFile certFile keyFile requireTLS_
      tracer w = (Some c, None) →
    Constructed c true.

Definition is_DoErr (r : DoResult) : Prop :=
  match r with
  | DoErr _ => True
  | DoOk _ => False
  end.
End Calls.

(** ** A scripted world

    A concrete instance of the collaborators, for running the client: the
    network answers the attempts from a script, a request whose context is
    canceled fails at once, TLS material loads from the files listed as
    readable, batches are batches of numbers. *)

Module Scripted.

Record ScriptedWorld : Type := {
  script : list DoResult;
  canceled : list nat;
  readable : list string
}.

#[export] Instance opaque : Opaque := {|
  World := ScriptedWorld;
  tls_Config := string * string * string;
  Tracer := unit;
  LRPStartRequest := Z;
  TaskStartRequest := Z
|}.

Definition default_client : http_Client :=
  {| Transport := RoundTripper_Transport
                    {| TLSClientConfig := None; transport_Dial := "tcp" |};
     client_Timeout := 0 |}.

Definition load_tls (certFile keyFile caCertFile : string) (w : ScriptedWorld)
  : string * string * string + error :=
  if bool_decide (certFile ∈ readable w ∧ keyFile ∈ readable w
                  ∧ caCertFile ∈ readable w)
  then inl (certFile, keyFile, caCertFile)
  else inr (errorString "failed to load keypair").

Definition split_scheme (host : string) : option (string * string) :=
  if String.prefix "https://" host
  then Some ("https", String.substring 8 (String.length host - 8) host)
  else if String.prefix "http://" host
  then Some ("http", String.substring 7 (String.length host - 7) host)
  else None.

Definition create_request (gen : rata_RequestGenerator) (name body : string)
  : Request + error :=
  match List.find (fun r => String.eqb (route_Name r) name) (gen_routes gen) with
  | None => inr (errorString ("No route exists with the name " +:+ name))
  | Some route =>
      match split_scheme (gen_host gen) with
      | None => inr (errorString "missing protocol scheme")
      | Some (scheme, host) =>
          inl {| req_Method := route_Method route;
                 req_URL := {| Scheme := scheme; Host := host;
                               Path := route_Path route |};
                 req_Header := ∅;
                 req_Body := body;
                 req_ctx := {| ctx_key := 0 |} |}
      end
  end.

(** How much of the body is read before the answer [r] comes: nothing
    when the connection is refused, all of it otherwise (a response or a
    later failure come after the request was written). *)
Definition read_before (r : DoResult) (body : string) : nat :=
  match r with
  | DoErr (errorString msg) =>
      if String.eqb msg "connection refused" then 0%nat else String.length body
  | DoOk _ => String.length body
  end.

Definition do (client : http_Client) (req : Request) (w : ScriptedWorld)
  : DoResult * (nat * ScriptedWorld) :=
  if bool_decide (ctx_key (req_ctx req) ∈ canceled w)
  then (DoErr (errorString "context canceled"), (0%nat, w))
  else match script w with
       | [] => (DoErr (errorString "connection refused"), (0%nat, w))
       | r :: rest =>
           (r, (read_before r (req_Body req),
                {| script := rest; canceled := canceled w;
                   readable := readable w |}))
       end.

Definition status_text (code : Z) : string :=
  if bool_decide (code = 202) then "Accepted"
  else if bool_decide (code = 400) then "Bad Request"
  else if bool_decide (code = 500) then "Internal Server Error"
  else "".

#[export] Instance collaborators : Collaborators := {|
  cfhttp_NewClient := default_client;
  cfhttp_NewTLSConfig := load_tls;
  middleware_ToHTTPRequest := fun _ req => req;
  Routes := [ {| route_Name := "CreateTaskAuctions"; route_Method := "POST";
                 route_Path := "/v1/tasks" |};
              {| route_Name := "CreateLRPAuctions"; route_Method := "POST";
                 route_Path := "/v1/lrps" |} ];
  CreateLRPAuctionsRoute := "CreateLRPAuctions";
  CreateTaskAuctionsRoute := "CreateTaskAuctions";
  rata_CreateRequest := create_request;
  encode_LRPStartRequest := fun n => inl (pretty n);
  encode_TaskStartRequest := fun n => inl (pretty n);
  http_Client_Do := do;
  ctx_Err := fun ctx w =>
    if bool_decide (ctx_key ctx ∈ canceled w)
    then Some (errorString "context canceled") else None;
  http_StatusText := status_text
|}.

(** The same collaborators, except that the HTTP client comes with a
    transport that is not an [http.Transport]. *)
Definition wrapped_client : http_Client :=
  {| Transport := RoundTripper_other "instrumented"; client_Timeout := 0 |}.

Definition instrumented : Collaborators := {|
  cfhttp_NewClient := wrapped_client;
  cfhttp_NewTLSConfig := load_tls;
  middleware_ToHTTPRequest := fun _ req => req;
  Routes := @Routes opaque collaborators;
  CreateLRPAuctionsRoute := "CreateLRPAuctions";
  CreateTaskAuctionsRoute := "CreateTaskAuctions";
  rata_CreateRequest := create_request;
  encode_LRPStartRequest := fun n => inl (pretty n);
  encode_TaskStartRequest := fun n => inl (pretty n);
  http_Client_Do := do;
  ctx_Err := @ctx_Err opaque collaborators;
  http_StatusText := status_text
|}.

(** The state in which a call on the client [c] starts. *)
Definition start (c : auctioneerClient) (w : ScriptedWorld) : State :=
  {| world := w; self := c; attempts := []; logged := []; closed := [] |}.

Definition logger : lager_Logger := rootLogger "bbs".
Definition background : context_Context := {| ctx_key := 0 |}.
Definition expired : context_Context := {| ctx_key := 1 |}.

(** The good setup: the three files are there, the context 1 is
    canceled, and the network gives the answers of the script. *)
Definition network (answers : list DoResult) : ScriptedWorld :=
  {| script := answers; canceled := [1%nat];
     readable := ["ca.crt"; "client.crt"; "client.key"] |}.

Definition refused : DoResult := DoErr (errorString "connection refused").
Definition reset : DoResult := DoErr (errorString "connection reset by peer").
Definition status (code : Z) : DoResult :=
  DoOk {| StatusCode := code; resp_Body := "" |}.

(** The client of [NewClient], and the one of [NewSecureClient] over the
    good setup. *)
Definition plain_client (auctioneerURL : string) : auctioneerClient :=
  NewClient auctioneerURL tt.

Definition secure_client (requireTLS_ : bool) : auctioneerClient :=
  default (plain_client "")
    (NewSecureClient "https://auctioneer.example" "ca.crt" "client.crt"
       "client.key" requireTLS_ tt (network [])).1.

(** The request a call hands to [doRequest]. *)
Definition request_for (c : auctioneerClient) (call : SubmitCall) : Request :=
  match call_request c call with
  | inl req => req
  | inr _ =>
      {| req_Method := ""; req_URL := {| Scheme := ""; Host := ""; Path := "" |};
         req_Header := ∅; req_Body := ""; req_ctx := background |}
  end.

(** A world without any certificate file. *)
Definition no_files : ScriptedWorld :=
  {| script := []; canceled := []; readable := [] |}.

Definition three_lrps : SubmitCall :=
  LRPAuctions logger background (Some [Some 1; None; Some 3]).
Definition no_tasks : SubmitCall := TaskAuctions logger background (Some []).
Definition nil_lrps : SubmitCall := LRPAuctions logger background None.
Definition late_lrps : SubmitCall := LRPAuctions logger expired (Some [Some 7]).
End Scripted.

(** ** What a call does, case by case *)

Section Traces.
Context `{Collaborators}.

(** The state [s] after a computation that left the world at [w] and
    added the attempts [tr], the log events [lg] and the closed bodies
    [cl]; the receiver is not assigned. *)
Definition extend (s : State) (w : World) (tr : list Attempt)
    (lg : list LogEntry) (cl : list Response) : State :=
  {| world := w;
     self := self s;
     attempts := attempts s ++ tr;
     logged := logged s ++ lg;
     closed := closed s ++ cl |}.

(** The attempt through [httpClient], and the fallback attempt. *)
Definition first_attempt (c : auctioneerClient) (req : Request) (r : DoResult)
  : Attempt :=
  {| attempt_field := field_httpClient;
     attempt_client := httpClient c;
     attempt_req := req;
     attempt_result := r |}.

Definition fallback_attempt (insecure : http_Client) (req : Request)
    (r : DoResult) : Attempt :=
  {| attempt_field := field_insecureHTTPClient;
     attempt_client := insecure;
     attempt_req := set_Scheme "http" req;
     attempt_result := r |}.

Definition retrying_on_http (logger : lager_Logger) (err : error) : LogEntry :=
  {| entry_logger := logger;
     entry_action := "retrying-on-http";
     entry_err := err |}.

(** The bodies closed once the outcome [r] of [doRequest] is known. *)
Definition closed_for (r : DoResult) : list Response :=
  match r with
  | DoOk resp => [resp]
  | DoErr _ => []
  end.

(** The four ways a submit call can go: its result, the world it leaves,
    and the attempts, log events and closed bodies it adds. The fallback
    attempt gets the request as the first attempt left it. *)
Inductive Course (call : SubmitCall) (s : State)
  : option error -> World -> list Attempt -> list LogEntry -> list Response
    -> Prop :=
| not_dispatched err :
    call_request (self s) call = inr err ->
    Course call s (Some err) (world s) [] [] []
| answered req resp n1 w1 :
    call_request (self s) call = inl req ->
    http_Client_Do (httpClient (self s)) req (world s)
    = (DoOk resp, (n1, w1)) ->
    Course call s (classify (DoOk resp)) w1
      [first_attempt (self s) req (DoOk resp)] [] [resp]
| failed_for_good req err n1 w1 :
    call_request (self s) call = inl req ->
    http_Client_Do (httpClient (self s)) req (world s)
    = (DoErr err, (n1, w1)) ->
    requireTLS (self s) = true ∨ insecureHTTPClient (self s) = None ->
    Course call s (Some err) w1
      [first_attempt (self s) req (DoErr err)] [] []
| fell_back req err n1 w1 insecure r2 n2 w2 :
    call_request (self s) call = inl req ->
    http_Client_Do (httpClient (self s)) req (world s)
    = (DoErr err, (n1, w1)) ->
    requireTLS (self s) = false ->
    insecureHTTPClient (self s) = Some insecure ->
    http_Client_Do insecure (set_Scheme "http" (read_Body n1 req)) w1
    = (r2, (n2, w2)) ->
    Course call s (classify r2) w2
      [first_attempt (self s) req (DoErr err);
       fallback_attempt insecure (read_Body n1 req) r2]
      [retrying_on_http (call_logger call) err]
      (closed_for r2).
End Traces.

(** ** What a call closes *)

Section Effects.
Context `{Collaborators}.

(** The response bodies a computation closes. *)
Definition closed_by {A : Type} (m : M A) (s : State) : list Response :=
  drop (length (closed s)) (closed (m s).2).

(** The responses received in a list of attempts. *)
Definition responses (tr : list Attempt) : list Response :=
  omap (λ a, match attempt_result a with
             | DoOk resp => Some resp
             | DoErr _ => None
             end) tr.
End Effects.

(** More of the scripted world. *)

Module ScriptedMore.
Import Scripted.

(** A client made by [NewSecureClient] for a plain-HTTP address, TLS
    optional. *)
Definition plain_address_client : auctioneerClient :=
  default (plain_client "")
    (NewSecureClient "http://auctioneer.example" "ca.crt" "client.crt"
       "client.key" false tt (network [])).1.

(** A state with a history of its own: the one a first call left, with
    the world set to [w]. *)
Definition used (c : auctioneerClient) (w : ScriptedWorld) : State :=
  let s := (submit no_tasks (start c (network [status 202]))).2 in
  {| world := w; self := self s; attempts := attempts s;
     logged := logged s; closed := closed s |}.

(** The client [c] without its insecure client, TLS optional. *)
Definition without_insecure (c : auctioneerClient) : auctioneerClient :=
  {| httpClient := httpClient c;
     insecureHTTPClient := None;
     url := url c;
     requireTLS := false;
     traceRequest := traceRequest c |}.
End ScriptedMore.

(** * Properties *)

Section Lemmas.
Context `{Collaborators}.

Lemma extend_nothing (s : State) : extend s (world s) [] [] [] = s.
Proof.
  destruct s as [w c tr lg cl]. unfold extend. simpl.
  by rewrite !app_nil_r.
Qed.

Lemma attempts_of_extend {A : Type} (m : M A) (s : State) a w tr lg cl :
  m s = (a, extend s w tr lg cl) -> attempts_of m s = tr.
Proof.
  intros Hm. unfold attempts_of. rewrite Hm. simpl. apply drop_app_length.
Qed.

Lemma logged_by_extend {A : Type} (m : M A) (s : State) a w tr lg cl :
  m s = (a, extend s w tr lg cl) -> logged_by m s = lg.
Proof.
  intros Hm. unfold logged_by. rewrite Hm. simpl. apply drop_app_length.
Qed.

(** [doRequest], when the first attempt gets a response. *)
Lemma doRequest_answered logger req (s : State) resp n1 w1 :
  http_Client_Do (httpClient (self s)) req (world s) = (DoOk resp, (n1, w1)) ->
  doRequest logger req s
  = (DoOk resp, extend s w1 [first_attempt (self s) req (DoOk resp)] [] []).
Proof.
  intros Hdo. unfold doRequest, bind, receiver, Do, ret. rewrite Hdo.
  unfold extend, first_attempt. simpl. by rewrite !app_nil_r.
Qed.

(** [doRequest], when the first attempt fails and the guard of the
    fallback is false. *)
Lemma doRequest_failed_for_good logger req (s : State) err n1 w1 :
  http_Client_Do (httpClient (self s)) req (world s) = (DoErr err, (n1, w1)) ->
  requireTLS (self s) = true ∨ insecureHTTPClient (self s) = None ->
  doRequest logger req s
  = (DoErr err, extend s w1 [first_attempt (self s) req (DoErr err)] [] []).
Proof.
  intros Hdo Hguard. unfold doRequest, bind, receiver, Do, ret. rewrite Hdo.
  unfold extend, first_attempt. simpl.
  destruct Hguard as [-> | ->]; simpl.
  - by rewrite !app_nil_r.
  - destruct (requireTLS (self s)); simpl; by rewrite !app_nil_r.
Qed.

(** [doRequest], when the first attempt fails and the fallback is taken:
    the second [Do] gets the request with its body read as far as the
    first one read it. *)
Lemma doRequest_fell_back logger req (s : State) err n1 w1 insecure r2 n2 w2 :
  http_Client_Do (httpClient (self s)) req (world s) = (DoErr err, (n1, w1)) ->
  requireTLS (self s) = false ->
  insecureHTTPClient (self s) = Some insecure ->
  http_Client_Do insecure (set_Scheme "http" (read_Body n1 req)) w1
  = (r2, (n2, w2)) ->
  doRequest logger req s
  = (r2, extend s w2
           [first_attempt (self s) req (DoErr err);
            fallback_attempt insecure (read_Body n1 req) r2]
           [retrying_on_http logger err] []).
Proof.
  intros Hdo Htls Hins Hdo2.
  unfold doRequest, bind, receiver, Do, ret, logger_Error.
  rewrite Hdo. simpl. rewrite Htls, Hins. simpl. rewrite Hdo2.
  unfold extend, first_attempt, fallback_attempt, retrying_on_http. simpl.
  by rewrite <- !app_assoc, !app_nil_r.
Qed.

(** Both operations are the same algorithm after the request is built. *)
Lemma submit_unfold (call : SubmitCall) (s : State) :
  submit call s
  = match call_request (self s) call with
    | inr err => (Some err, s)
    | inl req =>
        let '(r, s') := doRequest (call_logger call) req s in
        (classify r, extend s' (world s') [] [] (closed_for r))
    end.
Proof.
  destruct call as [logger ctx b | logger ctx b];
    unfold submit, RequestLRPAuctions, RequestTaskAuctions, call_request,
      call_payload, call_route, call_ctx, call_logger, bind, receiver, ret;
    simpl.
  - destruct (json_Marshal encode_LRPStartRequest b) as [payload | err];
      [| done].
    destruct (rata_CreateRequest _ _ payload) as [req | err]; [| done].
    destruct (doRequest _ _ s) as [[resp | err] s']; simpl.
    + unfold Body_Close, extend. simpl. by rewrite !app_nil_r.
    + by rewrite extend_nothing.
  - destruct (json_Marshal encode_TaskStartRequest b) as [payload | err];
      [| done].
    destruct (rata_CreateRequest _ _ payload) as [req | err]; [| done].
    destruct (doRequest _ _ s) as [[resp | err] s']; simpl.
    + unfold Body_Close, extend. simpl. by rewrite !app_nil_r.
    + by rewrite extend_nothing.
Qed.

(** The request a call builds has the content type set last. *)
Lemma call_request_content_type (c : auctioneerClient) (call : SubmitCall)
    (req : Request) :
  call_request c call = inl req →
  req_Header req !! "Content-Type" = Some ["application/json"].
Proof.
  unfold call_request.
  destruct (call_payload call) as [payload | err]; [| done].
  destruct (rata_CreateRequest _ _ payload) as [r | err]; [| done].
  intros [= <-]. simpl. apply lookup_insert_eq.
Qed.

Lemma call_request_ctx (c : auctioneerClient) (call : SubmitCall)
    (req : Request) :
  (∀ r, req_ctx (traceRequest c r) = req_ctx r) →
  call_request c call = inl req →
  req_ctx req = call_ctx call.
Proof.
  intros Htrace. unfold call_request.
  destruct (call_payload call) as [payload | err]; [| done].
  destruct (rata_CreateRequest _ _ payload) as [r | err]; [| done].
  intros [= <-]. simpl. by rewrite Htrace.
Qed.

Lemma read_Body_nothing (req : Request) : read_Body 0 req = req.
Proof. by destruct req. Qed.

(** Every call takes one of the four courses. *)
Lemma submit_course (call : SubmitCall) (s : State) :
  ∃ res w tr lg cl,
    Course call s res w tr lg cl ∧ submit call s = (res, extend s w tr lg cl).
Proof.
  rewrite submit_unfold.
  destruct (call_request (self s) call) as [req | err] eqn:Hreq.
  2:{ exists (Some err), (world s), [], [], []. split.
      - by apply not_dispatched.
      - by rewrite extend_nothing. }
  destruct (http_Client_Do (httpClient (self s)) req (world s))
    as [[resp | err] [n1 w1]] eqn:Hdo.
  - rewrite (doRequest_answered _ _ _ _ _ _ Hdo).
    eexists _, _, _, _, _. split; [by eapply answered |].
    unfold extend. simpl. by rewrite !app_nil_r.
  - destruct (requireTLS (self s)) eqn:Htls.
    { rewrite (doRequest_failed_for_good _ _ _ _ _ _ Hdo (or_introl Htls)).
      eexists _, _, _, _, _. split; [eapply failed_for_good; eauto |].
      unfold extend. simpl. by rewrite !app_nil_r. }
    destruct (insecureHTTPClient (self s)) as [insecure |] eqn:Hins.
    2:{ rewrite (doRequest_failed_for_good _ _ _ _ _ _ Hdo (or_intror Hins)).
        eexists _, _, _, _, _. split; [eapply failed_for_good; eauto |].
        unfold extend. simpl. by rewrite !app_nil_r. }
    destruct (http_Client_Do insecure (set_Scheme "http" (read_Body n1 req)) w1)
      as [r2 [n2 w2]] eqn:Hdo2.
    rewrite (doRequest_fell_back _ _ _ _ _ _ _ _ _ _ Hdo Htls Hins Hdo2).
    eexists _, _, _, _, _. split; [eapply fell_back; eauto |].
    unfold extend. simpl. by rewrite !app_nil_r.
Qed.
End Lemmas.

(** Replaces what a submit call added to the state by the lists of its
    course, one goal per course. *)
Ltac by_course call s :=
  let res := fresh "res" in
  let w := fresh "w" in
  let tr := fresh "tr" in
  let lg := fresh "lg" in
  let cl := fresh "cl" in
  let HC := fresh "HC" in
  let Hsub := fresh "Hsub" in
  destruct (submit_course call s) as (res & w & tr & lg & cl & HC & Hsub);
  try rewrite (attempts_of_extend _ _ _ _ _ _ _ Hsub);
  try rewrite (logged_by_extend _ _ _ _ _ _ _ Hsub);
  rewrite ?Hsub; clear Hsub;
  destruct HC as
    [ err Hreq
    | req resp n1 w1 Hreq Hdo
    | req err n1 w1 Hreq Hdo Hguard
    | req err n1 w1 insecure r2 n2 w2 Hreq Hdo Htls Hins Hdo2 ];
  simpl.

Section Dispatch.
Context `{Collaborators}.

(** C1: in every submit call the first HTTP attempt, made as soon as the
    request is built, goes through the secure client [httpClient]; a
    second attempt is made if and only if the first one failed with an
    error of [Do] while [requireTLS] is false and an insecure client is
    configured, and it goes through that insecure client; a call never
    makes more than two attempts. *)
Theorem C1_secure_first_one_fallback (call : SubmitCall) (s : State) :
  let c := self s in
  let tr := attempts_of (submit call) s in
  (length tr ≤ 2)%nat
  ∧ (is_Some (tr !! 0%nat) ↔ ∃ req, call_request c call = inl req)
  ∧ (∀ a1, tr !! 0%nat = Some a1 →
       attempt_field a1 = field_httpClient
       ∧ attempt_client a1 = httpClient c
       ∧ call_request c call = inl (attempt_req a1)
       ∧ attempt_result a1
         = (http_Client_Do (httpClient c) (attempt_req a1) (world s)).1)
  ∧ (is_Some (tr !! 1%nat) ↔
       (∃ a1, tr !! 0%nat = Some a1 ∧ is_DoErr (attempt_result a1))
       ∧ requireTLS c = false
       ∧ is_Some (insecureHTTPClient c))
  ∧ (∀ a2, tr !! 1%nat = Some a2 →
       attempt_field a2 = field_insecureHTTPClient
       ∧ insecureHTTPClient c = Some (attempt_client a2)).
Proof.
  intros c tr. subst c tr. by_course call s.
  - (* the request could not be built *)
    split; [lia |]. split; [| split; [| split]].
    + split; [by intros [? ?] | intros (req & Hreq'); congruence].
    + by intros a1 ?.
    + split; [by intros [? ?] | by intros ((a1 & ? & _) & _)].
    + by intros a2 ?.
  - (* a response on the first attempt *)
    split; [lia |]. split; [| split; [| split]].
    + split; eauto.
    + intros a1 [= <-]. simpl. by rewrite Hdo.
    + split; [by intros [? ?] | by intros ((a1 & [= <-] & ?) & _)].
    + by intros a2 ?.
  - (* an error, and the guard of the fallback is false *)
    split; [lia |]. split; [| split; [| split]].
    + split; eauto.
    + intros a1 [= <-]. simpl. by rewrite Hdo.
    + split; [by intros [? ?] |].
      intros (_ & Htls & Hins). destruct Hguard as [Ht | Hn].
      * congruence.
      * rewrite Hn in Hins. by destruct Hins.
    + by intros a2 ?.
  - (* an error, and the fallback *)
    split; [lia |]. split; [| split; [| split]].
    + split; eauto.
    + intros a1 [= <-]. simpl. by rewrite Hdo.
    + split; [| by eauto]. intros _. split; [| by eauto].
      eexists. split; [done |]. done.
    + intros a2 [= <-]. done.
Qed.

(** C2: when an HTTP attempt of a submit call completes with a response,
    the call returns nil if and only if the status code is 202; for any
    other status code it returns the error whose message carries the code
    and its status text; and the response ends the call: no attempt
    follows it, so a response on the secure client means a single attempt,
    whatever [requireTLS] is. *)
Theorem C2_accepted_or_http_error (call : SubmitCall) (s : State)
    (a : Attempt) (answer : Response) :
  a ∈ attempts_of (submit call) s →
  attempt_result a = DoOk answer →
  ((submit call s).1 = None ↔ StatusCode answer = 202)
  ∧ (StatusCode answer ≠ 202 →
       (submit call s).1
       = Some (errorString
                 ("http error: status code " +:+ pretty (StatusCode answer) +:+
                  " (" +:+ http_StatusText (StatusCode answer) +:+ ")")))
  ∧ last (attempts_of (submit call) s) = Some a
  ∧ (attempt_field a = field_httpClient → attempts_of (submit call) s = [a]).
Proof.
  by_course call s.
  - by intros ?%elem_of_nil.
  - intros ->%list_elem_of_singleton [= <-]. simpl.
    unfold http_StatusAccepted, http_error.
    case_bool_decide; naive_solver.
  - intros ->%list_elem_of_singleton. done.
  - intros Ha Hres. apply elem_of_cons in Ha as [-> | Ha]; [done |].
    apply list_elem_of_singleton in Ha as ->. simpl in Hres. subst r2. simpl.
    unfold http_StatusAccepted, http_error.
    case_bool_decide; naive_solver.
Qed.

(** C5 (as the client does it): [doRequest] never consults the context.
    When the secure attempt fails and the context of the call is already
    canceled or expired, the call returns a transport or cancellation
    error, the error of its last attempt (given that [Do] fails on a
    request whose context is done, and that the tracer keeps the context
    of the request). But it does not skip the fallback: it returns the
    error of the secure attempt after one attempt only if [requireTLS] is
    true or no insecure client is configured; otherwise it goes on to the
    fallback attempt on the insecure client, with the canceled context,
    and returns the error of that attempt. *)
Theorem C5_canceled_context_error_after_fallback (call : SubmitCall)
    (s : State) (request : Request) (e1 cerr : error) (n : nat)
    (after : World) :
  (∀ client req w, ctx_Err (req_ctx req) w ≠ None →
                   is_DoErr (http_Client_Do client req w).1) →
  (∀ r, req_ctx (traceRequest (self s) r) = req_ctx r) →
  call_request (self s) call = inl request →
  http_Client_Do (httpClient (self s)) request (world s)
  = (DoErr e1, (n, after)) →
  ctx_Err (call_ctx call) after = Some cerr →
  (∃ a e, last (attempts_of (submit call) s) = Some a
          ∧ attempt_result a = DoErr e
          ∧ (submit call s).1 = Some e)
  ∧ (requireTLS (self s) = true ∨ insecureHTTPClient (self s) = None →
     attempts_of (submit call) s = [first_attempt (self s) request (DoErr e1)]
     ∧ (submit call s).1 = Some e1)
  ∧ (∀ insecure,
       requireTLS (self s) = false →
       insecureHTTPClient (self s) = Some insecure →
       ∃ a2 e2,
         attempts_of (submit call) s
         = [first_attempt (self s) request (DoErr e1); a2]
         ∧ attempt_field a2 = field_insecureHTTPClient
         ∧ attempt_client a2 = insecure
         ∧ req_ctx (attempt_req a2) = call_ctx call
         ∧ attempt_result a2
           = (http_Client_Do insecure (attempt_req a2) after).1
         ∧ attempt_result a2 = DoErr e2
         ∧ (submit call s).1 = Some e2).
Proof.
  intros Hcancel Htrace Hreq' Hdo' Hctx. by_course call s.
  - congruence.
  - congruence.
  - assert (req = request) as -> by congruence.
    assert (err = e1) as -> by congruence.
    split; [by eexists _, _ |]. split; [done |].
    intros insecure Htls Hins. destruct Hguard; congruence.
  - assert (req = request) as -> by congruence.
    assert (err = e1 ∧ n1 = n ∧ w1 = after) as (-> & -> & ->)
      by (repeat split; congruence).
    assert (req_ctx (set_Scheme "http" (read_Body n request))
            = call_ctx call) as Hsame
      by (simpl; by eapply call_request_ctx).
    assert (is_DoErr r2) as Hfails.
    { pose proof (Hcancel insecure (set_Scheme "http" (read_Body n request))
                    after) as Hc.
      rewrite Hsame, Hctx, Hdo2 in Hc. by apply Hc. }
    destruct r2 as [resp | e2]; [done |]. simpl.
    split; [by eexists _, _ |]. split.
    + intros [Ht | Hn]; congruence.
    + intros insecure' _ Hins'.
      assert (insecure' = insecure) as -> by congruence.
      eexists _, e2. split; [done |]. simpl. by rewrite Hdo2.
Qed.

(** C6: when the fallback is taken and the insecure attempt fails too,
    the call returns the error of the second attempt; the error of the
    first attempt is logged (retrying-on-http) and is not the result,
    unless the two are the same error. *)
Theorem C6_second_failure_returned (call : SubmitCall) (s : State)
    (a1 a2 : Attempt) (e1 e2 : error) :
  attempts_of (submit call) s = [a1; a2] →
  attempt_result a1 = DoErr e1 →
  attempt_result a2 = DoErr e2 →
  (submit call s).1 = Some e2
  ∧ logged_by (submit call) s = [retrying_on_http (call_logger call) e1]
  ∧ ((submit call s).1 = Some e1 → e1 = e2).
Proof.
  by_course call s; try done.
  intros [= <- <-]. simpl. intros [= <-] ->. simpl.
  split; [done |]. split; [done |]. congruence.
Qed.

(** C9: a submit call assigns no field of the client: the configuration
    after the call is the configuration before it. *)
Theorem C9_configuration_not_mutated (call : SubmitCall) (s : State) :
  self (submit call s).2 = self s
  ∧ url (self (submit call s).2) = url (self s)
  ∧ requireTLS (self (submit call s).2) = requireTLS (self s)
  ∧ httpClient (self (submit call s).2) = httpClient (self s)
  ∧ insecureHTTPClient (self (submit call s).2) = insecureHTTPClient (self s)
  ∧ traceRequest (self (submit call s).2) = traceRequest (self s).
Proof.
  assert (self (submit call s).2 = self s) as ->; [| done].
  destruct (submit_course call s) as (res & w & tr & lg & cl & _ & ->).
  done.
Qed.

(** C10 (as the client does it): on a client made by [NewClient] a submit
    call makes one HTTP attempt when its request is built and none when
    marshalling or [CreateRequest] fails; it never takes the fallback
    branch, because [insecureHTTPClient] is nil although [requireTLS] is
    false. *)
Theorem C10_NewClient_never_falls_back (auctioneerURL : string)
    (tracer : Tracer) (call : SubmitCall) (s : State) :
  self s = NewClient auctioneerURL tracer →
  (length (attempts_of (submit call) s) ≤ 1)%nat
  ∧ (length (attempts_of (submit call) s) = 1%nat
     ↔ ∃ req, call_request (self s) call = inl req)
  ∧ Forall (λ a, attempt_field a = field_httpClient)
      (attempts_of (submit call) s)
  ∧ logged_by (submit call) s = []
  ∧ insecureHTTPClient (self s) = None
  ∧ requireTLS (self s) = false.
Proof.
  intros Hself.
  assert (insecureHTTPClient (self s) = None) as Hnone by by rewrite Hself.
  assert (requireTLS (self s) = false) as Hfalse by by rewrite Hself.
  by_course call s.
  - split; [lia |]. split; [| by repeat constructor].
    split; [done | intros (req & ?); congruence].
  - split; [lia |]. split; [| by repeat constructor]. split; eauto.
  - split; [lia |]. split; [| by repeat constructor]. split; eauto.
  - congruence.
Qed.
End Dispatch.

(** ** Serialization of the batch *)

Section Marshal.
Context {E : Type} (encode : E → string + error).

Lemma string_app_assoc (a b c : string) : (a +:+ b) +:+ c = a +:+ (b +:+ c).
Proof.
  induction a as [| x a IH]; [done |].
  change (String x ((a +:+ b) +:+ c) = String x (a +:+ (b +:+ c))).
  by rewrite IH.
Qed.

Lemma string_app_empty_r (a : string) : a +:+ "" = a.
Proof.
  induction a as [| x a IH]; [done |].
  change (String x (a +:+ "") = String x a). by rewrite IH.
Qed.

Lemma concat_commas (x : string) (items : list string) :
  String.concat "," (x :: items) = x +:+ commas items.
Proof.
  revert x. induction items as [| y ys IH]; intros x.
  - simpl. by rewrite string_app_empty_r.
  - change (x +:+ "," +:+ String.concat "," (y :: ys)
            = x +:+ "," +:+ y +:+ commas ys).
    by rewrite IH.
Qed.

Lemma appended_cons (i : nat) (x : string) (items : list string) :
  appended i (x :: items)
  = (if (0 <? i)%nat then "," else "") +:+ x +:+ appended (S i) items.
Proof.
  unfold appended. change (0 <? S i)%nat with true.
  destruct (0 <? i)%nat; [done |]. by rewrite concat_commas.
Qed.

Lemma arrayEncoder_loop_inl (elems : list (ptr E)) :
  ∀ (i : nat) (buf out : string),
    arrayEncoder_loop encode i elems buf = inl out →
    ∃ items, map (ptrEncoder encode) elems = map inl items
             ∧ out = buf +:+ appended i items.
Proof.
  induction elems as [| p rest IH]; intros i buf out; simpl.
  - intros [= <-]. exists []. split; [done |].
    unfold appended. destruct (0 <? i)%nat; simpl;
      by rewrite string_app_empty_r.
  - destruct (ptrEncoder encode p) as [x | err]; [| done].
    intros Hloop. apply IH in Hloop as (items & Hitems & ->).
    exists (x :: items). split; [simpl; by rewrite Hitems |].
    rewrite appended_cons.
    destruct (0 <? i)%nat; by rewrite !string_app_assoc.
Qed.

Lemma arrayEncoder_loop_total (elems : list (ptr E)) :
  ∀ (i : nat) (buf : string) (items : list string),
    map (ptrEncoder encode) elems = map inl items →
    arrayEncoder_loop encode i elems buf = inl (buf +:+ appended i items).
Proof.
  induction elems as [| p rest IH]; intros i buf [| x items]; simpl;
    try done.
  - intros _. unfold appended. destruct (0 <? i)%nat; simpl;
      by rewrite string_app_empty_r.
  - intros [= -> Hitems]. rewrite (IH _ _ _ Hitems).
    rewrite appended_cons.
    destruct (0 <? i)%nat; by rewrite !string_app_assoc.
Qed.

(** A slice that is not nil marshals to the JSON array of the encodings
    of its elements, in their order, when they all encode. *)
Lemma json_Marshal_array (elems : list (ptr E)) (out : string) :
  json_Marshal encode (Some elems) = inl out →
  ∃ items, map (ptrEncoder encode) elems = map inl items
           ∧ out = json_array items.
Proof.
  unfold json_Marshal.
  destruct (arrayEncoder_loop encode 0 elems "[") as [buf | err] eqn:Hloop;
    [| done].
  intros [= <-]. apply arrayEncoder_loop_inl in Hloop as (items & Hitems & ->).
  exists items. split; [done |]. unfold json_array, appended. simpl.
  by rewrite string_app_assoc.
Qed.

Lemma json_Marshal_total (elems : list (ptr E)) (items : list string) :
  map (ptrEncoder encode) elems = map inl items →
  json_Marshal encode (Some elems) = inl (json_array items).
Proof.
  intros Hitems. unfold json_Marshal.
  rewrite (arrayEncoder_loop_total _ 0%nat "[" _ Hitems).
  unfold json_array, appended. simpl. by rewrite string_app_assoc.
Qed.
End Marshal.

Section Body.
Context `{Collaborators}.

(** The payload of a call, by the encodings of the elements of its
    batch. *)
Lemma call_payload_items (call : SubmitCall) :
  match call_items call with
  | None => call_payload call = inl "null"
  | Some encodings =>
      (∀ out, call_payload call = inl out →
         ∃ items, encodings = map inl items ∧ out = json_array items)
      ∧ (∀ items, encodings = map inl items →
           call_payload call = inl (json_array items))
  end.
Proof.
  destruct call as [logger ctx [elems |] | logger ctx [elems |]]; simpl;
    try done.
  - split; [apply json_Marshal_array | apply json_Marshal_total].
  - split; [apply json_Marshal_array | apply json_Marshal_total].
Qed.

(** The body of the request a call builds is its payload, when neither
    rata nor the tracer replace the body. *)
Lemma call_request_body (c : auctioneerClient) (call : SubmitCall)
    (req : Request) :
  (∀ gen name body r, rata_CreateRequest gen name body = inl r →
                      req_Body r = body) →
  (∀ r, req_Body (traceRequest c r) = req_Body r) →
  call_request c call = inl req →
  call_payload call = inl (req_Body req).
Proof.
  intros Hrata Htrace. unfold call_request.
  destruct (call_payload call) as [payload | err]; [| done].
  destruct (rata_CreateRequest _ _ payload) as [r | err] eqn:Hr; [| done].
  intros [= <-]. simpl. rewrite Htrace. simpl.
  by rewrite (Hrata _ _ _ _ Hr).
Qed.

(** C4 (as the client does it): a batch that is not the nil slice, the
    empty one included, whose elements all encode, is serialized to one
    JSON array whose elements are the encodings of the elements of the
    batch in their order, and the empty batch to the empty array; that
    array is the body of the request the call builds and hands to its
    first HTTP attempt, provided rata's CreateRequest and the tracer keep
    the body they are given. The nil slice is serialized to the JSON value
    null, and that is the body sent. *)
Theorem C4_batch_body (call : SubmitCall) (s : State) :
  (∀ gen name body r, rata_CreateRequest gen name body = inl r →
                      req_Body r = body) →
  (∀ r, req_Body (traceRequest (self s) r) = req_Body r) →
  match call_items call with
  | None =>
      call_payload call = inl "null"
      ∧ ∀ a, attempts_of (submit call) s !! 0%nat = Some a →
             req_Body (attempt_req a) = "null"
  | Some encodings =>
      (∀ items, encodings = map inl items →
         call_payload call = inl (json_array items))
      ∧ (encodings = [] → call_payload call = inl "[]")
      ∧ (∀ req, call_request (self s) call = inl req →
           ∃ items, encodings = map inl items
                    ∧ req_Body req = json_array items)
      ∧ (∀ a, attempts_of (submit call) s !! 0%nat = Some a →
           ∃ items, encodings = map inl items
                    ∧ req_Body (attempt_req a) = json_array items)
  end.
Proof.
  intros Hrata Htrace.
  assert (∀ a, attempts_of (submit call) s !! 0%nat = Some a →
               call_payload call = inl (req_Body (attempt_req a))) as Hbody.
  { by_course call s.
    - by intros a ?.
    - intros a [= <-]. simpl. by apply (call_request_body (self s)).
    - intros a [= <-]. simpl. by apply (call_request_body (self s)).
    - intros a [= <-]. simpl. by apply (call_request_body (self s)). }
  pose proof (call_payload_items call) as Hitems.
  destruct (call_items call) as [encodings |].
  - destruct Hitems as [Hinl Htotal]. split; [done |]. split; [| split].
    + intros ->. by apply (Htotal []).
    + intros req Hreq.
      by apply Hinl, (call_request_body (self s)).
    + intros a Ha. by apply Hinl, Hbody.
  - split; [done |]. intros a Ha. apply Hbody in Ha. congruence.
Qed.
End Body.

(** ** The constructors *)

Section Constructors.
Context `{Collaborators}.

(** What [NewSecureClient] returns when it returns a client. *)
Lemma NewSecureClient_Some auctioneerURL caFile certFile keyFile requireTLS_
    tracer w c err :
  NewSecureClient auctioneerURL caFile certFile keyFile requireTLS_ tracer w
  = (Some c, err) →
  err = None
  ∧ insecureHTTPClient c = Some cfhttp_NewClient
  ∧ requireTLS c = requireTLS_
  ∧ url c = auctioneerURL.
Proof.
  unfold NewSecureClient.
  destruct (cfhttp_NewTLSConfig certFile keyFile caFile w); [| done].
  destruct (Transport cfhttp_NewClient); try done.
  by intros [= <- <-].
Qed.

(** C3 (as the client does it): the insecure client is present exactly in
    the configurations made by [NewSecureClient], whatever [requireTLS]
    is, and [NewClient] leaves TLS optional; what depends on TLS not
    being mandatory is its use: on a configuration with [requireTLS]
    true no submit call makes an attempt on the insecure client. *)
Theorem C3_insecure_client_present_but_unused (c : auctioneerClient)
    (secure : bool) :
  Constructed c secure →
  (is_Some (insecureHTTPClient c) ↔ secure = true)
  ∧ (secure = false → requireTLS c = false)
  ∧ (requireTLS c = true →
     ∀ call s, self s = c →
       Forall (λ a, attempt_field a = field_httpClient)
         (attempts_of (submit call) s)).
Proof.
  intros Hc. split; [| split].
  - destruct Hc as [? ? | ? ? ? ? ? ? ? c Hnew]; simpl.
    + split; [by intros [? ?] | done].
    + apply NewSecureClient_Some in Hnew as (_ & -> & _). split; eauto.
  - destruct Hc; [done | done].
  - intros Hmandatory call s <-. by_course call s.
    + constructor.
    + by repeat constructor.
    + by repeat constructor.
    + congruence.
Qed.

(** C8: when the TLS material cannot be loaded (the loader returns an
    error for the certificate, key and CA files), or when the transport
    of the HTTP client is not an [http.Transport] that can take a TLS
    configuration, [NewSecureClient] returns an error and a nil client:
    the error of the loader in the first case, Invalid transport
    otherwise. *)
Theorem C8_no_client_on_configuration_error
    (auctioneerURL caFile certFile keyFile : string) (requireTLS_ : bool)
    (tracer : Tracer) (w : World) :
  (∃ err, cfhttp_NewTLSConfig certFile keyFile caFile w = inr err)
  ∨ (∀ tr, Transport cfhttp_NewClient ≠ RoundTripper_Transport tr) →
  NewSecureClient auctioneerURL caFile certFile keyFile requireTLS_ tracer w
  = (None,
     Some match cfhttp_NewTLSConfig certFile keyFile caFile w with
          | inr err => err
          | inl _ => errorString "Invalid transport"
          end).
Proof.
  unfold NewSecureClient. intros [(err & ->) | Hother]; [done |].
  destruct (cfhttp_NewTLSConfig certFile keyFile caFile w); [| done].
  destruct (Transport cfhttp_NewClient) as [| tr |] eqn:Htr; try done.
  by destruct (Hother tr).
Qed.
End Constructors.

(** * The client at work in the scripted world *)

Module Examples.
Import Scripted.

(** The scenario of the fallback: TLS optional, the secure attempt is
    refused, the insecure one is accepted. *)
Example fallback_accepted :
  let s := start (secure_client false) (network [refused; status 202]) in
  (submit three_lrps s).1 = None
  ∧ map attempt_field (attempts_of (submit three_lrps) s)
    = [field_httpClient; field_insecureHTTPClient]
  ∧ map (λ a, Scheme (req_URL (attempt_req a)))
      (attempts_of (submit three_lrps) s) = ["https"; "http"]
  ∧ map (λ a, req_Body (attempt_req a)) (attempts_of (submit three_lrps) s)
    = ["[1,null,3]"; "[1,null,3]"].
Proof. vm_compute. done. Qed.

(** TLS mandatory: the failure of the secure attempt is the result. *)
Example mandatory_TLS_refused :
  let s := start (secure_client true) (network [refused; status 202]) in
  (submit three_lrps s).1 = Some (errorString "connection refused")
  ∧ map attempt_field (attempts_of (submit three_lrps) s) = [field_httpClient]
  ∧ self (submit three_lrps s).2 = secure_client true.
Proof. vm_compute. done. Qed.

Lemma C2_witness :
  let s := start (secure_client false) (network [status 500]) in
  let a := first_attempt (secure_client false)
             (request_for (secure_client false) no_tasks) (status 500) in
  a ∈ attempts_of (submit no_tasks) s
  ∧ (submit no_tasks s).1
    = Some (errorString "http error: status code 500 (Internal Server Error)")
  ∧ attempts_of (submit no_tasks) s = [a].
Proof.
  intros s a.
  assert (a ∈ attempts_of (submit no_tasks) s) as Hin
    by (vm_compute; apply list_elem_of_here).
  destruct (C2_accepted_or_http_error no_tasks s a
              {| StatusCode := 500; resp_Body := "" |} Hin eq_refl)
    as (_ & Herror & _ & Hsingle).
  split; [exact Hin |]. split.
  - rewrite Herror; [reflexivity | vm_compute; discriminate].
  - apply Hsingle. reflexivity.
Defined.

(** With TLS mandatory [NewSecureClient] still stores the insecure
    client. *)
Lemma C3_insecure_client_with_mandatory_TLS :
  ∃ c,
    NewSecureClient "https://auctioneer.example" "ca.crt" "client.crt"
      "client.key" true tt (network []) = (Some c, None)
    ∧ requireTLS c = true
    ∧ insecureHTTPClient c = Some cfhttp_NewClient.
Proof. exists (secure_client true). vm_compute. done. Qed.

Lemma C3_witness :
  Constructed (secure_client true) true
  ∧ is_Some (insecureHTTPClient (secure_client true))
  ∧ Forall (λ a, attempt_field a = field_httpClient)
      (attempts_of (submit three_lrps)
         (start (secure_client true) (network [refused; status 202]))).
Proof.
  assert (Constructed (secure_client true) true) as Hc.
  { apply (@by_NewSecureClient opaque collaborators
             "https://auctioneer.example" "ca.crt" "client.crt" "client.key"
             true tt (network [])).
    reflexivity. }
  destruct (C3_insecure_client_present_but_unused _ _ Hc)
    as (Hpresent & _ & Hunused).
  split; [exact Hc |]. split.
  - apply Hpresent. reflexivity.
  - apply Hunused; reflexivity.
Defined.

(** The nil batch is an empty batch, and its body is not an array. *)
Lemma C4_nil_batch_sent_as_null :
  let s := start (secure_client true) (network [status 202]) in
  match nil_lrps with
  | LRPAuctions _ _ lrpStarts => len lrpStarts = 0%nat
  | TaskAuctions _ _ tasks => len tasks = 0%nat
  end
  ∧ map (λ a, req_Body (attempt_req a)) (attempts_of (submit nil_lrps) s)
    = ["null"]
  ∧ "null" ≠ json_array [].
Proof. vm_compute. done. Qed.

Lemma scripted_rata_body gen name body r :
  rata_CreateRequest gen name body = inl r → req_Body r = body.
Proof.
  simpl. unfold create_request.
  destruct (List.find _ _); [| done].
  destruct (split_scheme _) as [[scheme host] |]; [| done].
  by intros [= <-].
Qed.

Lemma C4_witness :
  let s := start (secure_client false) (network [reset; status 202]) in
  (∀ gen name body r, rata_CreateRequest gen name body = inl r →
                      req_Body r = body)
  ∧ (∀ r, req_Body (traceRequest (self s) r) = req_Body r)
  ∧ call_payload three_lrps = inl "[1,null,3]"
  ∧ call_payload no_tasks = inl "[]"
  ∧ ∀ a, attempts_of (submit three_lrps) s !! 0%nat = Some a →
         req_Body (attempt_req a) = "[1,null,3]".
Proof.
  intros s.
  assert (∀ r, req_Body (traceRequest (self s) r) = req_Body r) as Htrace
    by reflexivity.
  pose proof (C4_batch_body three_lrps s scripted_rata_body Htrace)
    as (Htotal & _ & _ & Hsent).
  pose proof (C4_batch_body no_tasks s scripted_rata_body Htrace)
    as (_ & Hempty & _).
  split; [exact scripted_rata_body |]. split; [exact Htrace |]. split.
  - apply (Htotal ["1"; "null"; "3"]). reflexivity.
  - split; [apply Hempty; reflexivity |].
    intros a Ha. destruct (Hsent a Ha) as (items & Hitems & ->).
    destruct items as [| i1 [| i2 [| i3 [| ? ?]]]]; try discriminate.
    injection Hitems as <- <- <-. reflexivity.
Defined.

(** The context is expired before the call; the secure attempt fails with
    it, and the call still goes to the insecure client. *)
Lemma C5_fallback_on_expired_context :
  let s := start (secure_client false) (network [status 202]) in
  ctx_Err (call_ctx late_lrps) (world s)
  = Some (errorString "context canceled")
  ∧ map (λ a, (attempt_field a, req_ctx (attempt_req a), attempt_result a))
      (attempts_of (submit late_lrps) s)
    = [(field_httpClient, expired, DoErr (errorString "context canceled"));
       (field_insecureHTTPClient, expired,
        DoErr (errorString "context canceled"))]
  ∧ logged_by (submit late_lrps) s
    = [retrying_on_http (call_logger late_lrps)
         (errorString "context canceled")].
Proof. vm_compute. done. Qed.

Lemma scripted_Do_canceled client req w :
  ctx_Err (req_ctx req) w ≠ None → is_DoErr (http_Client_Do client req w).1.
Proof.
  simpl. unfold do. case_bool_decide; [done |]. by intros [].
Qed.

Lemma C5_witness :
  let c := secure_client false in
  let s := start c (network [status 202]) in
  let request := request_for c late_lrps in
  let canceled := errorString "context canceled" in
  call_request (self s) late_lrps = inl request
  ∧ http_Client_Do (httpClient (self s)) request (world s)
    = (DoErr canceled, (0%nat, network [status 202]))
  ∧ ctx_Err (call_ctx late_lrps) (network [status 202]) = Some canceled
  ∧ map attempt_field (attempts_of (submit late_lrps) s)
    = [field_httpClient; field_insecureHTTPClient]
  ∧ (submit late_lrps s).1 = Some canceled.
Proof.
  intros c s request canceled.
  assert (∀ r, req_ctx (traceRequest (self s) r) = req_ctx r) as Htrace
    by reflexivity.
  assert (call_request (self s) late_lrps = inl request) as Hreq
    by reflexivity.
  assert (http_Client_Do (httpClient (self s)) request (world s)
          = (DoErr canceled, (0%nat, network [status 202]))) as Hdo
    by reflexivity.
  assert (ctx_Err (call_ctx late_lrps) (network [status 202])
          = Some canceled) as Hctx by reflexivity.
  destruct (C5_canceled_context_error_after_fallback late_lrps s request
              canceled canceled 0%nat (network [status 202])
              scripted_Do_canceled Htrace Hreq Hdo Hctx)
    as (_ & _ & Hfallback).
  destruct (Hfallback cfhttp_NewClient eq_refl eq_refl)
    as (a2 & e2 & Htr & Hfield & _ & _ & Hvalue & Herr & Hres).
  split; [exact Hreq |]. split; [exact Hdo |]. split; [exact Hctx |].
  split.
  - rewrite Htr. simpl. rewrite Hfield. reflexivity.
  - rewrite Hres. f_equal.
    assert (DoErr e2 = DoErr canceled) as Heq.
    { rewrite <- Herr, Hvalue.
      assert (attempts_of (submit late_lrps) s !! 1%nat = Some a2) as Ha2
        by (rewrite Htr; reflexivity).
      assert (attempts_of (submit late_lrps) s !! 1%nat
              = Some (fallback_attempt cfhttp_NewClient request
                        (DoErr canceled))) as Ha2'
        by (vm_compute; reflexivity).
      rewrite Ha2' in Ha2. injection Ha2 as <-. reflexivity. }
    injection Heq as ->. reflexivity.
Defined.

Lemma C6_witness :
  let c := secure_client false in
  let s := start c (network [refused; reset]) in
  let a1 := first_attempt c (request_for c three_lrps) refused in
  let a2 := fallback_attempt cfhttp_NewClient (request_for c three_lrps)
              reset in
  attempts_of (submit three_lrps) s = [a1; a2]
  ∧ (submit three_lrps s).1 = Some (errorString "connection reset by peer")
  ∧ logged_by (submit three_lrps) s
    = [retrying_on_http (call_logger three_lrps)
         (errorString "connection refused")]
  ∧ (submit three_lrps s).1 ≠ Some (errorString "connection refused").
Proof.
  intros c s a1 a2.
  assert (attempts_of (submit three_lrps) s = [a1; a2]) as Htr
    by (vm_compute; reflexivity).
  destruct (C6_second_failure_returned three_lrps s a1 a2
              (errorString "connection refused")
              (errorString "connection reset by peer")
              Htr eq_refl eq_refl) as (Hres & Hlog & Hother).
  split; [exact Htr |]. split; [exact Hres |]. split; [exact Hlog |].
  intros Hfirst. apply Hother in Hfirst. discriminate Hfirst.
Defined.

(** C7: the retried request should be the request of the secure attempt
    with only the scheme rewritten, and it is not when the secure attempt
    fails after it has read the body. Here the connection is reset once the
    request is written, TLS is optional and an insecure client is
    configured: the fallback gets the request with the scheme set to http
    and the same host, path and method, but its body reader is the one the
    first attempt has emptied and nobody rewound; the first attempt carried
    the array of the batch, the retry carries nothing. *)
Lemma C7_retry_with_body_already_read :
  let s := start (secure_client false) (network [reset; status 202]) in
  map (λ a, (attempt_field a, Scheme (req_URL (attempt_req a)),
             Host (req_URL (attempt_req a)), Path (req_URL (attempt_req a)),
             req_Method (attempt_req a), req_Body (attempt_req a)))
    (attempts_of (submit three_lrps) s)
  = [(field_httpClient, "https", "auctioneer.example", "/v1/lrps", "POST",
      "[1,null,3]");
     (field_insecureHTTPClient, "http", "auctioneer.example", "/v1/lrps",
      "POST", "")].
Proof. vm_compute. reflexivity. Qed.

Lemma C8_witness :
  (∃ err, cfhttp_NewTLSConfig "client.crt" "client.key" "ca.crt" no_files
          = inr err)
  ∧ NewSecureClient "https://auctioneer.example" "ca.crt" "client.crt"
      "client.key" false tt no_files
    = (None, Some (errorString "failed to load keypair"))
  ∧ (∀ tr, Transport (@cfhttp_NewClient opaque instrumented)
           ≠ RoundTripper_Transport tr)
  ∧ @NewSecureClient opaque instrumented "https://auctioneer.example" "ca.crt"
      "client.crt" "client.key" false tt (network [])
    = (None, Some (errorString "Invalid transport")).
Proof.
  assert (∃ err, cfhttp_NewTLSConfig "client.crt" "client.key" "ca.crt"
                   no_files = inr err) as Hload
    by (eexists; reflexivity).
  assert (∀ tr, Transport (@cfhttp_NewClient opaque instrumented)
                ≠ RoundTripper_Transport tr) as Hother
    by (intros tr; discriminate).
  split; [exact Hload |]. split.
  - exact (@C8_no_client_on_configuration_error opaque collaborators
             "https://auctioneer.example" "ca.crt" "client.crt" "client.key"
             false tt no_files (or_introl Hload)).
  - split; [exact Hother |].
    exact (@C8_no_client_on_configuration_error opaque instrumented
             "https://auctioneer.example" "ca.crt" "client.crt" "client.key"
             false tt (network []) (or_intror Hother)).
Defined.

(** On the client of [NewClient] with an address that is no URL the
    request is not built, and the call makes no HTTP attempt. *)
Lemma C10_no_attempt_without_request :
  let s := start (plain_client ":") (network [status 202]) in
  self s = NewClient ":" tt
  ∧ attempts_of (submit three_lrps) s = []
  ∧ (submit three_lrps s).1 = Some (errorString "missing protocol scheme").
Proof. vm_compute. done. Qed.

Lemma C10_witness :
  let s := start (plain_client "http://auctioneer.example")
             (network [refused; status 202]) in
  self s = NewClient "http://auctioneer.example" tt
  ∧ length (attempts_of (submit three_lrps) s) = 1%nat
  ∧ logged_by (submit three_lrps) s = []
  ∧ (submit three_lrps s).1 = Some (errorString "connection refused").
Proof.
  intros s.
  assert (self s = NewClient "http://auctioneer.example" tt) as Hself
    by reflexivity.
  destruct (@C10_NewClient_never_falls_back opaque collaborators
              "http://auctioneer.example" tt three_lrps s Hself)
    as (_ & Hone & _ & Hlog & _).
  split; [exact Hself |]. split.
  - apply Hone. eexists. reflexivity.
  - split; [exact Hlog | reflexivity].
Defined.
End Examples.

(** * Further properties of the client *)

Section EffectLemmas.
Context `{Collaborators}.

Lemma closed_by_extend {A : Type} (m : M A) (s : State) a w tr lg cl :
  m s = (a, extend s w tr lg cl) → closed_by m s = cl.
Proof.
  intros Hm. unfold closed_by. rewrite Hm. simpl. apply drop_app_length.
Qed.

(** A call has one course. *)
Lemma Course_deterministic (call : SubmitCall) (s : State)
    res w tr lg cl res' w' tr' lg' cl' :
  Course call s res w tr lg cl → Course call s res' w' tr' lg' cl' →
  res = res' ∧ w = w' ∧ tr = tr' ∧ lg = lg' ∧ cl = cl'.
Proof.
  intros HC HC'.
  destruct HC as
    [ err Hreq
    | req resp n1 w1 Hreq Hdo
    | req err n1 w1 Hreq Hdo Hguard
    | req err n1 w1 insecure r2 n2 w2 Hreq Hdo Htls Hins Hdo2 ];
  destruct HC' as
    [ err' Hreq'
    | req' resp' n1' w1' Hreq' Hdo'
    | req' err' n1' w1' Hreq' Hdo' Hguard'
    | req' err' n1' w1' insecure' r2' n2' w2' Hreq' Hdo' Htls' Hins' Hdo2' ];
  rewrite Hreq in Hreq'; simplify_eq;
    try (rewrite Hdo in Hdo'; simplify_eq); try done.
  - destruct Hguard; congruence.
  - destruct Hguard'; congruence.
  - rewrite Hdo2 in Hdo2'. by simplify_eq.
Qed.

Lemma set_Scheme_same (req : Request) :
  set_Scheme (Scheme (req_URL req)) req = req.
Proof. by destruct req as [m [sch h p] hd b cx]. Qed.
End EffectLemmas.

(** As [by_course], for what the call closes and for the state it leaves
    as well. *)
Ltac by_course_all call s :=
  let res := fresh "res" in
  let w := fresh "w" in
  let tr := fresh "tr" in
  let lg := fresh "lg" in
  let cl := fresh "cl" in
  let HC := fresh "HC" in
  let Hsub := fresh "Hsub" in
  destruct (submit_course call s) as (res & w & tr & lg & cl & HC & Hsub);
  try rewrite (attempts_of_extend _ _ _ _ _ _ _ Hsub);
  try rewrite (logged_by_extend _ _ _ _ _ _ _ Hsub);
  try rewrite (closed_by_extend _ _ _ _ _ _ _ Hsub);
  rewrite ?Hsub; clear Hsub;
  destruct HC as
    [ err Hreq
    | req resp n1 w1 Hreq Hdo
    | req err n1 w1 Hreq Hdo Hguard
    | req err n1 w1 insecure r2 n2 w2 Hreq Hdo Htls Hins Hdo2 ];
  simpl.

Section Further.
Context `{Collaborators}.

(** X1: [NewSecureClient] returns either a client and a nil error, or a nil
    client and an error, never both or neither; it returns a client exactly
    when the TLS material loads and the transport of the HTTP client is an
    [http.Transport]. *)
Theorem NewSecureClient_client_iff_configured
    (auctioneerURL caFile certFile keyFile : string) (requireTLS_ : bool)
    (tracer : Tracer) (w : World) :
  let result := NewSecureClient auctioneerURL caFile certFile keyFile
                  requireTLS_ tracer w in
  (is_Some result.1 ↔ result.2 = None)
  ∧ (is_Some result.1 ↔
       (∃ cfg, cfhttp_NewTLSConfig certFile keyFile caFile w = inl cfg)
       ∧ (∃ tr, Transport cfhttp_NewClient = RoundTripper_Transport tr)).
Proof.
  unfold NewSecureClient.
  destruct (cfhttp_NewTLSConfig certFile keyFile caFile w) as [cfg | err];
    simpl.
  - destruct (Transport cfhttp_NewClient) as [| tr |]; simpl.
    + split; split; try done; try by intros [? ?].
      intros (_ & tr & ?). done.
    + split; split; eauto.
    + split; split; try done; try by intros [? ?].
      intros (_ & tr & ?). done.
  - split; split; try done; try by intros [? ?].
    intros ((cfg & ?) & _). done.
Qed.

(** X2: in the client [NewSecureClient] returns, the secure HTTP client is
    the default client with the TLS configuration loaded from the
    certificate, key and CA files (in the order the loader takes them)
    assigned to its transport and nothing else changed; the insecure client
    is the default client, without that configuration; the address and
    [requireTLS] are the arguments. *)
Theorem NewSecureClient_configuration
    (auctioneerURL caFile certFile keyFile : string) (requireTLS_ : bool)
    (tracer : Tracer) (w : World) (c : auctioneerClient) (err : option error) :
  NewSecureClient auctioneerURL caFile certFile keyFile requireTLS_ tracer w
  = (Some c, err) →
  ∃ cfg tr0 tr,
    cfhttp_NewTLSConfig certFile keyFile caFile w = inl cfg
    ∧ Transport cfhttp_NewClient = RoundTripper_Transport tr0
    ∧ Transport (httpClient c) = RoundTripper_Transport tr
    ∧ TLSClientConfig tr = Some cfg
    ∧ transport_Dial tr = transport_Dial tr0
    ∧ client_Timeout (httpClient c) = client_Timeout cfhttp_NewClient
    ∧ insecureHTTPClient c = Some cfhttp_NewClient
    ∧ url c = auctioneerURL
    ∧ requireTLS c = requireTLS_
    ∧ traceRequest c = middleware_ToHTTPRequest tracer.
Proof.
  unfold NewSecureClient.
  destruct (cfhttp_NewTLSConfig certFile keyFile caFile w) as [cfg | e];
    [| done].
  destruct (Transport cfhttp_NewClient) as [| tr0 |] eqn:Htr; try done.
  intros [= <- <-]. simpl. eexists cfg, tr0, _. by repeat split.
Qed.

(** X3: every HTTP attempt of a submit call, the fallback included, carries
    the header Content-Type: application/json, whatever the tracer did to
    the headers, since the header is set after the tracer ran. *)
Theorem every_attempt_is_json (call : SubmitCall) (s : State) :
  Forall (λ a, req_Header (attempt_req a) !! "Content-Type"
               = Some ["application/json"])
    (attempts_of (submit call) s).
Proof.
  by_course call s.
  - constructor.
  - repeat constructor. simpl. by eapply call_request_content_type.
  - repeat constructor. simpl. by eapply call_request_content_type.
  - repeat constructor; simpl; by eapply call_request_content_type.
Qed.

(** X4: when the tracer leaves the context of the request alone, every HTTP
    attempt of a submit call, the fallback included, carries the context
    the caller passed. *)
Theorem every_attempt_carries_ctx (call : SubmitCall) (s : State) :
  (∀ r, req_ctx (traceRequest (self s) r) = req_ctx r) →
  Forall (λ a, req_ctx (attempt_req a) = call_ctx call)
    (attempts_of (submit call) s).
Proof.
  intros Htrace. by_course call s.
  - constructor.
  - repeat constructor. simpl. by eapply call_request_ctx.
  - repeat constructor. simpl. by eapply call_request_ctx.
  - repeat constructor; simpl; by eapply call_request_ctx.
Qed.

(** X5: a submit call closes the body of every response it receives, once,
    and closes nothing else: at most one body, and none when every attempt
    failed or when no request was sent. *)
Theorem responses_are_closed (call : SubmitCall) (s : State) :
  closed_by (submit call) s = responses (attempts_of (submit call) s)
  ∧ (length (closed_by (submit call) s) ≤ 1)%nat
  ∧ (Forall (λ a, is_DoErr (attempt_result a)) (attempts_of (submit call) s)
     → closed_by (submit call) s = []).
Proof.
  by_course_all call s.
  - split; [done |]. split; [lia | done].
  - split; [done |]. split; [lia |].
    intros Hall. by apply Forall_inv in Hall.
  - split; [done |]. split; [lia | done].
  - destruct r2 as [resp | err2]; simpl.
    + split; [done |]. split; [lia |].
      intros Hall. by apply Forall_inv_tail, Forall_inv in Hall.
    + split; [done |]. split; [lia | done].
Qed.

(** X6: a submit call logs exactly when it falls back: nothing with at most
    one attempt, and with two attempts the single event retrying-on-http
    with the error of the first attempt, on the session of the operation
    (request-lrp-auctions or request-task-auctions), whether or not the
    second attempt succeeds. *)
Theorem logs_exactly_the_fallback (call : SubmitCall) (s : State) :
  (logged_by (submit call) s = []
   ↔ (length (attempts_of (submit call) s) ≤ 1)%nat)
  ∧ (∀ a1 a2, attempts_of (submit call) s = [a1; a2] →
       ∃ e1, attempt_result a1 = DoErr e1
             ∧ logged_by (submit call) s
               = [{| entry_logger := call_logger call;
                     entry_action := "retrying-on-http";
                     entry_err := e1 |}])
  ∧ call_logger call
    = match call with
      | LRPAuctions logger _ _ => Session logger "request-lrp-auctions"
      | TaskAuctions logger _ _ => Session logger "request-task-auctions"
      end.
Proof.
  split; [| split]; [| | by destruct call].
  - by_course call s; split; try done; try lia.
  - by_course call s; try done.
    intros a1 a2 [= <- <-]. eexists. split; done.
Qed.

(** X7: an error a submit call returns is the error met while building the
    request (then no attempt was made), or the error of its last attempt,
    or the http error for the status code, other than 202, of the response
    to its last attempt. *)
Theorem returned_error_provenance (call : SubmitCall) (s : State) (e : error) :
  (submit call s).1 = Some e →
  (attempts_of (submit call) s = [] ∧ call_request (self s) call = inr e)
  ∨ (∃ a, last (attempts_of (submit call) s) = Some a
          ∧ (attempt_result a = DoErr e
             ∨ ∃ resp, attempt_result a = DoOk resp
                       ∧ StatusCode resp ≠ 202
                       ∧ e = http_error (StatusCode resp))).
Proof.
  by_course call s.
  - intros [= <-]. by left.
  - case_bool_decide as Hcode; [| done]. intros [= <-].
    right. eexists. split; [done |]. right. by eexists.
  - intros [= <-]. right. eexists. split; [done |]. by left.
  - destruct r2 as [resp | err2]; simpl.
    + case_bool_decide as Hcode; [| done]. intros [= <-].
      right. eexists. split; [done |]. right. by eexists.
    + intros [= <-]. right. eexists. split; [done |]. by left.
Qed.

(** X8: a submit call returns nil if and only if its last HTTP attempt got
    a response with status code 202: it never reports success without that
    response, and in particular not when the request could not be built. *)
Theorem nil_iff_last_attempt_accepted (call : SubmitCall) (s : State) :
  (submit call s).1 = None
  ↔ ∃ a resp, last (attempts_of (submit call) s) = Some a
              ∧ attempt_result a = DoOk resp
              ∧ StatusCode resp = 202.
Proof.
  by_course call s.
  - split; [done | by intros (a & resp & ? & _)].
  - unfold http_StatusAccepted. case_bool_decide as Hcode; split; try done.
    + intros (a & resp' & [= <-] & [= <-] & ?). done.
    + intros _. eexists _, _. split; [done |]. split; [done |].
      lia.
  - split; [done |]. intros (a & resp & [= <-] & ? & _). done.
  - destruct r2 as [resp | err2]; simpl.
    + unfold http_StatusAccepted. case_bool_decide as Hcode; split; try done.
      * intros (a & resp' & [= <-] & [= <-] & ?). done.
      * intros _. eexists _, _. split; [done |]. split; [done |].
        lia.
    + split; [done |]. intros (a & resp & [= <-] & ? & _). done.
Qed.

(** X9: when marshalling the batch fails, or when rata cannot create the
    request, the submit call returns that error and does nothing else: the
    state after the call is the state before it (no HTTP attempt, no log
    event, the world untouched). *)
Theorem failure_before_dispatch_has_no_effect (call : SubmitCall) (s : State)
    (err : error) :
  call_payload call = inr err
  ∨ (∃ payload,
       call_payload call = inl payload
       ∧ rata_CreateRequest (rata_NewRequestGenerator (url (self s)) Routes)
           (call_route call) payload = inr err) →
  submit call s = (Some err, s)
  ∧ attempts_of (submit call) s = []
  ∧ logged_by (submit call) s = [].
Proof.
  intros Hfail.
  assert (submit call s = (Some err, s)) as Hsub.
  { rewrite submit_unfold. unfold call_request.
    destruct Hfail as [-> | (payload & -> & ->)]; done. }
  split; [done |]. rewrite <- (extend_nothing s) in Hsub at 2.
  by rewrite (attempts_of_extend _ _ _ _ _ _ _ Hsub),
    (logged_by_extend _ _ _ _ _ _ _ Hsub).
Qed.

(** X12: when the request of the secure attempt already has the scheme
    http (a client made for a plain-HTTP address) and that attempt read
    nothing of the body, the fallback sends the very same request again,
    on the insecure client. *)
Theorem fallback_repeats_plain_request (call : SubmitCall) (s : State)
    (a1 a2 : Attempt) :
  attempts_of (submit call) s = [a1; a2] →
  Scheme (req_URL (attempt_req a1)) = "http" →
  (http_Client_Do (attempt_client a1) (attempt_req a1) (world s)).2.1 = 0%nat →
  attempt_req a2 = attempt_req a1
  ∧ attempt_field a2 = field_insecureHTTPClient.
Proof.
  by_course call s; try done.
  intros [= <- <-]. simpl. rewrite Hdo. simpl. intros <- ->.
  split; [| done]. rewrite read_Body_nothing. apply set_Scheme_same.
Qed.

(** X14: the request of a fallback attempt is the request of the secure
    attempt as that attempt left it, with the scheme of its URL set to
    http: same host, path, method, headers and context, and for body what
    the secure attempt has not read of it, which is the whole body when
    that attempt read nothing. *)
Theorem fallback_request (call : SubmitCall) (s : State) (a1 a2 : Attempt) :
  attempts_of (submit call) s = [a1; a2] →
  let n := (http_Client_Do (attempt_client a1) (attempt_req a1) (world s)).2.1
  in
  attempt_req a2 = set_Scheme "http" (read_Body n (attempt_req a1))
  ∧ Scheme (req_URL (attempt_req a2)) = "http"
  ∧ Host (req_URL (attempt_req a2)) = Host (req_URL (attempt_req a1))
  ∧ Path (req_URL (attempt_req a2)) = Path (req_URL (attempt_req a1))
  ∧ req_Method (attempt_req a2) = req_Method (attempt_req a1)
  ∧ req_Header (attempt_req a2) = req_Header (attempt_req a1)
  ∧ req_ctx (attempt_req a2) = req_ctx (attempt_req a1)
  ∧ req_Body (attempt_req a2) = unread n (req_Body (attempt_req a1))
  ∧ (n = 0%nat → req_Body (attempt_req a2) = req_Body (attempt_req a1)).
Proof.
  by_course call s; try done.
  intros [= <- <-]. simpl. rewrite Hdo. simpl.
  do 8 (split; [done |]). by intros ->.
Qed.

Lemma call_request_ext (c c' : auctioneerClient) (call : SubmitCall) :
  url c = url c' → traceRequest c = traceRequest c' →
  call_request c call = call_request c' call.
Proof. intros Hurl Htrace. unfold call_request. by rewrite Hurl, Htrace. Qed.

(** X13: the two ways of having no fallback are the same: a client with
    [requireTLS] true (whatever its insecure client) and a client without
    insecure client, equal otherwise (secure client, address, tracer), give
    the same result, the same attempts and the same world for every submit
    call, and neither logs. *)
Theorem mandatory_TLS_is_no_insecure_client (call : SubmitCall)
    (s s' : State) :
  world s = world s' →
  httpClient (self s) = httpClient (self s') →
  url (self s) = url (self s') →
  traceRequest (self s) = traceRequest (self s') →
  requireTLS (self s) = true →
  insecureHTTPClient (self s') = None →
  (submit call s).1 = (submit call s').1
  ∧ attempts_of (submit call) s = attempts_of (submit call) s'
  ∧ world (submit call s).2 = world (submit call s').2
  ∧ logged_by (submit call) s = []
  ∧ logged_by (submit call) s' = [].
Proof.
  intros Hw Hclient Hurl Htrace Hmandatory Hnone.
  pose proof (call_request_ext _ _ call Hurl Htrace) as Hsame.
  destruct (submit_course call s) as (r1 & w1 & t1 & l1 & c1 & HC1 & Hs1).
  destruct (submit_course call s') as (r2 & w2 & t2 & l2 & c2 & HC2 & Hs2).
  assert (Course call s' r1 w1 t1 l1 c1 ∧ l1 = []) as [HC1' ->].
  { destruct HC1 as
      [ err Hreq
      | req resp n w Hreq Hdo
      | req err n w Hreq Hdo Hguard
      | req err n w insecure r n' w' Hreq Hdo Htls Hins Hdo2 ].
    - split; [| done]. rewrite Hw. apply not_dispatched. by rewrite <- Hsame.
    - split; [| done]. unfold first_attempt. rewrite Hclient.
      eapply answered; [by rewrite <- Hsame |]. by rewrite <- Hclient, <- Hw.
    - split; [| done]. unfold first_attempt. rewrite Hclient.
      eapply failed_for_good; [by rewrite <- Hsame | | by right].
      by rewrite <- Hclient, <- Hw.
    - congruence. }
  destruct (Course_deterministic _ _ _ _ _ _ _ _ _ _ _ _ HC1' HC2)
    as (-> & -> & -> & <- & ->).
  rewrite (attempts_of_extend _ _ _ _ _ _ _ Hs1),
    (attempts_of_extend _ _ _ _ _ _ _ Hs2),
    (logged_by_extend _ _ _ _ _ _ _ Hs1),
    (logged_by_extend _ _ _ _ _ _ _ Hs2), Hs1, Hs2.
  done.
Qed.
End Further.

(** * The further properties in the scripted world *)

Module MoreExamples.
Import Scripted ScriptedMore.

Lemma NewSecureClient_configuration_witness :
  NewSecureClient "https://auctioneer.example" "ca.crt" "client.crt"
    "client.key" true tt (network []) = (Some (secure_client true), None)
  ∧ ∃ tr, Transport (httpClient (secure_client true))
          = RoundTripper_Transport tr
          ∧ TLSClientConfig tr = Some ("client.crt", "client.key", "ca.crt")
          ∧ insecureHTTPClient (secure_client true) = Some default_client.
Proof.
  assert (NewSecureClient "https://auctioneer.example" "ca.crt" "client.crt"
            "client.key" true tt (network [])
          = (Some (secure_client true), None)) as Hnew by reflexivity.
  split; [exact Hnew |].
  destruct (@NewSecureClient_configuration opaque collaborators _ _ _ _ _ _ _
              _ _ Hnew)
    as (cfg & tr0 & tr & Hcfg & _ & Htr & Htls & _ & _ & Hins & _).
  exists tr. split; [exact Htr |]. split; [| exact Hins].
  rewrite Htls. f_equal. injection Hcfg as <-. reflexivity.
Defined.

Lemma every_attempt_carries_ctx_witness :
  let s := start (secure_client false) (network [refused; status 202]) in
  (∀ r, req_ctx (traceRequest (self s) r) = req_ctx r)
  ∧ map (λ a, req_ctx (attempt_req a)) (attempts_of (submit three_lrps) s)
    = [background; background].
Proof.
  intros s.
  assert (∀ r, req_ctx (traceRequest (self s) r) = req_ctx r) as Htrace
    by reflexivity.
  split; [exact Htrace |].
  pose proof (every_attempt_carries_ctx three_lrps s Htrace) as Hall.
  assert (length (attempts_of (submit three_lrps) s) = 2%nat) as Hlen
    by reflexivity.
  destruct (attempts_of (submit three_lrps) s) as [| a1 [| a2 [| ? ?]]];
    try discriminate Hlen.
  apply Forall_cons in Hall as [H1 Hall].
  apply Forall_cons in Hall as [H2 _].
  simpl. rewrite H1, H2. reflexivity.
Defined.

Lemma returned_error_provenance_witness :
  let s := start (secure_client false) (network [refused; status 500]) in
  (submit three_lrps s).1 = Some (http_error 500)
  ∧ ∃ a, last (attempts_of (submit three_lrps) s) = Some a
         ∧ attempt_field a = field_insecureHTTPClient
         ∧ attempt_result a = status 500.
Proof.
  intros s.
  assert ((submit three_lrps s).1 = Some (http_error 500)) as Hres
    by reflexivity.
  split; [exact Hres |].
  destruct (returned_error_provenance three_lrps s _ Hres)
    as [[Hnone _] | (a & Hlast & _)].
  - exfalso. revert Hnone. vm_compute. discriminate.
  - exists a. split; [exact Hlast |].
    assert (last (attempts_of (submit three_lrps) s)
            = Some (fallback_attempt cfhttp_NewClient
                      (request_for (secure_client false) three_lrps)
                      (status 500))) as Hlast'
      by (vm_compute; reflexivity).
    rewrite Hlast' in Hlast. injection Hlast as <-. split; reflexivity.
Defined.

Lemma failure_before_dispatch_witness :
  let s := used (plain_client ":") (network [status 202]) in
  (∃ payload,
     call_payload three_lrps = inl payload
     ∧ rata_CreateRequest (rata_NewRequestGenerator (url (self s)) Routes)
         (call_route three_lrps) payload
       = inr (errorString "missing protocol scheme"))
  ∧ submit three_lrps s = (Some (errorString "missing protocol scheme"), s).
Proof.
  intros s.
  assert (∃ payload,
            call_payload three_lrps = inl payload
            ∧ rata_CreateRequest
                (rata_NewRequestGenerator (url (self s)) Routes)
                (call_route three_lrps) payload
              = inr (errorString "missing protocol scheme")) as Hfail
    by (eexists; split; reflexivity).
  split; [exact Hfail |].
  exact (proj1 (failure_before_dispatch_has_no_effect three_lrps s _
                  (or_intror Hfail))).
Defined.

Lemma fallback_repeats_plain_request_witness :
  let c := plain_address_client in
  let s := start c (network [refused; status 202]) in
  let a1 := first_attempt c (request_for c three_lrps) refused in
  let a2 := fallback_attempt cfhttp_NewClient (request_for c three_lrps)
              (status 202) in
  attempts_of (submit three_lrps) s = [a1; a2]
  ∧ Scheme (req_URL (attempt_req a1)) = "http"
  ∧ (http_Client_Do (attempt_client a1) (attempt_req a1) (world s)).2.1
    = 0%nat
  ∧ attempt_req a2 = attempt_req a1.
Proof.
  intros c s a1 a2.
  assert (attempts_of (submit three_lrps) s = [a1; a2]) as Htr
    by (vm_compute; reflexivity).
  assert (Scheme (req_URL (attempt_req a1)) = "http") as Hscheme
    by reflexivity.
  assert ((http_Client_Do (attempt_client a1) (attempt_req a1) (world s)).2.1
          = 0%nat) as Hread by reflexivity.
  split; [exact Htr |]. split; [exact Hscheme |]. split; [exact Hread |].
  exact (proj1 (fallback_repeats_plain_request three_lrps s a1 a2 Htr
                  Hscheme Hread)).
Defined.

Lemma fallback_request_witness :
  let c := secure_client false in
  let s := start c (network [reset; status 202]) in
  ∃ a1 a2,
    attempts_of (submit three_lrps) s = [a1; a2]
    ∧ req_Body (attempt_req a1) = "[1,null,3]"
    ∧ (http_Client_Do (attempt_client a1) (attempt_req a1) (world s)).2.1
      = 10%nat
    ∧ req_Body (attempt_req a2) = ""
    ∧ req_Header (attempt_req a2) = req_Header (attempt_req a1)
    ∧ Scheme (req_URL (attempt_req a2)) = "http".
Proof.
  intros c s.
  exists (first_attempt c (request_for c three_lrps) reset),
    (fallback_attempt cfhttp_NewClient
       (read_Body 10 (request_for c three_lrps)) (status 202)).
  assert (attempts_of (submit three_lrps) s
          = [first_attempt c (request_for c three_lrps) reset;
             fallback_attempt cfhttp_NewClient
               (read_Body 10 (request_for c three_lrps)) (status 202)])
    as Htr by (vm_compute; reflexivity).
  destruct (fallback_request three_lrps s _ _ Htr)
    as (_ & Hscheme & _ & _ & _ & Hheader & _ & Hbody & _).
  split; [exact Htr |]. split; [reflexivity |]. split; [reflexivity |].
  split; [rewrite Hbody; reflexivity |]. split; [exact Hheader |].
  exact Hscheme.
Defined.

Lemma mandatory_TLS_is_no_insecure_client_witness :
  let c := secure_client true in
  let w := network [refused; status 202] in
  requireTLS c = true
  ∧ insecureHTTPClient (without_insecure c) = None
  ∧ (submit three_lrps (start c w)).1
    = (submit three_lrps (start (without_insecure c) w)).1
  ∧ (submit three_lrps (start c w)).1
    = Some (errorString "connection refused").
Proof.
  intros c w.
  destruct (mandatory_TLS_is_no_insecure_client three_lrps (start c w)
              (start (without_insecure c) w)
              eq_refl eq_refl eq_refl eq_refl eq_refl eq_refl)
    as (Hres & _).
  split; [reflexivity |]. split; [reflexivity |]. split; [exact Hres |].
  reflexivity.
Defined.
End MoreExamples.
